(** * Quantum-Ready Parsing Engine: the rule-based parsing pipeline of [app.py]

    The development embeds the parsing pipeline of [src/app.py] (normalizer,
    tokenizer, the four keyword extractors, the vector builder and the
    [/parse] endpoint body) and states its properties.

    Modelling conventions.
    - A Python [str] is a [string]; its characters are the code points
      0..255.  On this range [str.lower] maps [A-Z] and the Latin-1 capitals
      to their small letters, and the whitespace class of [\s], [str.strip]
      and [str.split] is the twelve characters listed in [is_space].
    - [Optional[str]] is [option string]; [None] is Python's [None].
    - A dict that is only looked up is a [gmap]; a dict that is iterated with
      [.items()] is the list of its items in insertion order.
    - A Python [float] is a binary64 [float]; the literals are the same
      decimal literals as in the source. *)

From Stdlib Require Import NArith Ascii String.
From Stdlib Require Import Floats.PrimFloat.
From stdpp Require Import base option list gmap strings.

Set Warnings "-inexact-float".

Local Open Scope string_scope.
Local Open Scope N_scope.

(** ** Characters *)

(** The class [[a-z0-9]] of the first regular expression. *)
Definition is_lower_alnum (c : ascii) : bool :=
  let n := N_of_ascii c in
  ((97 <=? n) && (n <=? 122)) || ((48 <=? n) && (n <=? 57)).

(** The class [\s] on code points 0..255: tab, line feed, vertical tab, form
    feed, carriage return, the four separators 0x1c-0x1f, space, NEL (0x85)
    and the no-break space (0xa0).  [str.strip()] and [str.split()] use the
    same class. *)
Definition is_space (c : ascii) : bool :=
  let n := N_of_ascii c in
  ((9 <=? n) && (n <=? 13)) || ((28 <=? n) && (n <=? 32))
  || (n =? 133) || (n =? 160).

(** Characters with a lowercase mapping on code points 0..255: [A-Z], and the
    Latin-1 capitals 0xc0-0xde without the multiplication sign 0xd7. *)
Definition is_upper (c : ascii) : bool :=
  let n := N_of_ascii c in
  ((65 <=? n) && (n <=? 90))
  || ((192 <=? n) && (n <=? 222) && negb (n =? 215)).

Definition lower_char (c : ascii) : ascii :=
  if is_upper c then ascii_of_N (N_of_ascii c + 32) else c.

(** The ASCII punctuation characters (Python's [string.punctuation]). *)
Definition is_punct (c : ascii) : bool :=
  let n := N_of_ascii c in
  ((33 <=? n) && (n <=? 47)) || ((58 <=? n) && (n <=? 64))
  || ((91 <=? n) && (n <=? 96)) || ((123 <=? n) && (n <=? 126)).

(** ** String primitives used by the source *)

(** [text.lower()] *)
Fixpoint lower (s : string) : string :=
  match s with
  | EmptyString => EmptyString
  | String c r => String (lower_char c) (lower r)
  end.

(** [re.sub(r"[^a-z0-9\s]", " ", text)]: every character outside the class is
    replaced by one space. *)
Fixpoint sub_non_alnum (s : string) : string :=
  match s with
  | EmptyString => EmptyString
  | String c r =>
      String (if is_lower_alnum c || is_space c then c else " "%char)
             (sub_non_alnum r)
  end.

(** [re.sub(r"\s+", " ", text)]: every maximal run of whitespace is replaced
    by one space.  [in_run] tells that the previous character was part of the
    run being replaced. *)
Fixpoint sub_spaces (in_run : bool) (s : string) : string :=
  match s with
  | EmptyString => EmptyString
  | String c r =>
      if is_space c
      then if in_run then sub_spaces true r
           else String " "%char (sub_spaces true r)
      else String c (sub_spaces false r)
  end.

Fixpoint lstrip (s : string) : string :=
  match s with
  | EmptyString => EmptyString
  | String c r => if is_space c then lstrip r else s
  end.

Fixpoint rstrip (s : string) : string :=
  match s with
  | EmptyString => EmptyString
  | String c r =>
      match rstrip r with
      | EmptyString => if is_space c then EmptyString else String c EmptyString
      | r' => String c r'
      end
  end.

(** [text.strip()] *)
Definition strip (s : string) : string := rstrip (lstrip s).

(** [text.split()]: the maximal runs of non-whitespace characters, in order.
    [cur] is the word being read. *)
Fixpoint split_from (cur : string) (s : string) : list string :=
  match s with
  | EmptyString => if decide (cur = "") then [] else [cur]
  | String c r =>
      if is_space c
      then if decide (cur = "") then split_from "" r
           else cur :: split_from "" r
      else split_from (cur +:+ String c "") r
  end.

Definition split (s : string) : list string := split_from "" s.

(** [k in text] on strings: [k] occurs in [text] as a contiguous substring. *)
Fixpoint str_in (k text : string) : bool :=
  String.prefix k text
  || match text with
     | EmptyString => false
     | String _ r => str_in k r
     end.

(** ** Data models *)

Module RawQuery.
Record t : Type := mk {
  query : string;
  user_role : option string;
  location : option string;
  channel : option string
}.

(** The field defaults of the model: [user_role = "customer"],
    [location = None], [channel = "web"]. *)
Definition of_query (q : string) : t :=
  mk q (Some "customer") None (Some "web").
End RawQuery.

Module ParsedQuery.
Record t : Type := mk {
  primary_intent : string;
  service_type : option string;
  urgency : option string;
  budget_sensitivity : option string;
  location : option string;
  modifiers : gmap string string;
  quantum_ready_vector : option (list float)
}.

(** [parsed.quantum_ready_vector = v] *)
Definition set_quantum_ready_vector (v : option (list float)) (p : t) : t :=
  mk (primary_intent p) (service_type p) (urgency p) (budget_sensitivity p)
     (location p) (modifiers p) v.
End ParsedQuery.

(** ** Keyword tables *)

Definition SERVICE_KEYWORDS : gmap string string :=
  list_to_map
    [ ("plumber", "plumbing");
      ("plumbing", "plumbing");
      ("leak", "leak");
      ("pipe", "leak");
      ("drain", "drain");
      ("toilet", "toilet");
      ("roof", "roofing");
      ("roofer", "roofing");
      ("hvac", "hvac");
      ("air conditioner", "hvac");
      ("furnace", "hvac");
      ("electrician", "electrical");
      ("electrical", "electrical");
      ("cement", "cement");
      ("concrete", "cement") ].

(** The items of [URGENCY_KEYWORDS], in insertion order. *)
Definition URGENCY_KEYWORDS : list (string * string) :=
  [ ("now", "emergency");
    ("asap", "emergency");
    ("urgent", "emergency");
    ("tonight", "emergency");
    ("today", "same_day");
    ("tomorrow", "soon");
    ("whenever", "flexible") ].

(** The items of [BUDGET_KEYWORDS], in insertion order. *)
Definition BUDGET_KEYWORDS : list (string * string) :=
  [ ("cheap", "low");
    ("affordable", "low");
    ("budget", "low");
    ("expensive", "high");
    ("premium", "high");
    ("fair price", "medium") ].

Definition STOPWORDS : gset string :=
  list_to_set
    [ "i"; "need"; "a"; "an"; "the"; "to"; "for"; "my"; "in"; "at"; "on"; "of";
      "please"; "help"; "with"; "and"; "is"; "it"; "that"; "can"; "you" ].

(** The literal list of [extract_service_type]. *)
Definition SERVICE_TYPES : list string :=
  [ "leak"; "drain"; "toilet"; "roof"; "hvac"; "cement"; "concrete" ].

(** ** The pipeline *)

Definition normalize (text : string) : string :=
  let text := lower text in
  let text := sub_non_alnum text in
  let text := strip (sub_spaces false text) in
  text.

Fixpoint extract_primary_intent (tokens : list string) : string :=
  match tokens with
  | [] => "general_service"
  | t :: rest =>
      match SERVICE_KEYWORDS !! t with
      | Some category => category +:+ "_service"
      | None => extract_primary_intent rest
      end
  end.

Fixpoint extract_service_type (tokens : list string) : option string :=
  match tokens with
  | [] => None
  | t :: rest =>
      if decide (t ∈ SERVICE_TYPES) then Some t else extract_service_type rest
  end.

(** The loop shared by [extract_urgency] and [extract_budget]:
    [for k, v in items: if k in text: return v] and [None] after the loop. *)
Fixpoint first_item_in (items : list (string * string)) (text : string)
  : option string :=
  match items with
  | [] => None
  | (k, v) :: rest => if str_in k text then Some v else first_item_in rest text
  end.

Definition extract_urgency (text : string) : option string :=
  first_item_in URGENCY_KEYWORDS text.

Definition extract_budget (text : string) : option string :=
  first_item_in BUDGET_KEYWORDS text.

Definition tokenize (text : string) : list string :=
  filter (λ t, t ∉ STOPWORDS) (split text).

Definition intent_map : gmap string float :=
  list_to_map
    [ ("plumbing_service", 0.1%float);
      ("roofing_service", 0.2%float);
      ("hvac_service", 0.3%float);
      ("electrical_service", 0.4%float);
      ("cement_service", 0.5%float);
      ("general_service", 0.0%float) ].

Definition urgency_map : gmap (option string) float :=
  list_to_map
    [ (Some "emergency", 1.0%float);
      (Some "same_day", 0.7%float);
      (Some "soon", 0.5%float);
      (Some "flexible", 0.2%float);
      (None, 0.0%float) ].

Definition budget_map : gmap (option string) float :=
  list_to_map
    [ (Some "low", 0.2%float);
      (Some "medium", 0.5%float);
      (Some "high", 0.8%float);
      (None, 0.0%float) ].

(** [d.get(k, 0.0)] *)
Definition get_or_zero {K} `{Countable K} (d : gmap K float) (k : K) : float :=
  default 0.0%float (d !! k).

Definition build_quantum_ready_vector (parsed : ParsedQuery.t) : list float :=
  let intent_val := get_or_zero intent_map (ParsedQuery.primary_intent parsed) in
  let urgency_val := get_or_zero urgency_map (ParsedQuery.urgency parsed) in
  let budget_val :=
    get_or_zero budget_map (ParsedQuery.budget_sensitivity parsed) in
  [intent_val; urgency_val; budget_val].

(** [if field: modifiers[key] = field] for an [Optional[str]] field: the test
    is Python truthiness, false on [None] and on the empty string. *)
Definition set_if_truthy (key : string) (field : option string)
    (modifiers : gmap string string) : gmap string string :=
  match field with
  | None => modifiers
  | Some s => if decide (s = "") then modifiers else <[key := s]> modifiers
  end.

Definition parse_query (payload : RawQuery.t) : ParsedQuery.t :=
  let normalized := normalize (RawQuery.query payload) in
  let tokens := tokenize normalized in
  let primary_intent := extract_primary_intent tokens in
  let service_type := extract_service_type tokens in
  let urgency := extract_urgency normalized in
  let budget := extract_budget normalized in
  let modifiers : gmap string string := ∅ in
  let modifiers := set_if_truthy "user_role" (RawQuery.user_role payload) modifiers in
  let modifiers := set_if_truthy "channel" (RawQuery.channel payload) modifiers in
  let parsed :=
    ParsedQuery.mk primary_intent service_type urgency budget
      (RawQuery.location payload) modifiers None in
  ParsedQuery.set_quantum_ready_vector
    (Some (build_quantum_ready_vector parsed)) parsed.

(** ** Sample runs *)

Definition plumber_query : RawQuery.t :=
  RawQuery.mk "I need a cheap plumber in San Jose ASAP"
    (Some "customer") (Some "San Jose, CA") (Some "web").

Definition roof_query : RawQuery.t :=
  RawQuery.of_query "roof leak, fair price please, whenever is fine".

(** ** Notions used in the statements *)

(** [k] occurs in [text] as a contiguous substring. *)
Definition substring (k text : string) : Prop :=
  exists pre post, text = pre +:+ k +:+ post.

(** No phrase of the table occurs in [text]. *)
Definition no_phrase_in (items : list (string * string)) (text : string) : Prop :=
  Forall (fun kv => ~ substring kv.1 text) items.

(** No token is a key of the service keyword table. *)
Definition no_service_keyword (tokens : list string) : Prop :=
  Forall (fun t => SERVICE_KEYWORDS !! t = None) tokens.

(** [r] is the label of the first item of the table, in table order, whose
    phrase occurs in [text]; it is [None] when no phrase occurs. *)
Definition first_phrase_label (items : list (string * string)) (text : string)
    (r : option string) : Prop :=
  (exists before k v after,
      items = (before ++ (k, v) :: after)%list
      /\ no_phrase_in before text
      /\ substring k text
      /\ r = Some v)
  \/ (no_phrase_in items text /\ r = None).

(** [r] is the category of the earliest token that is a key of the service
    keyword table, with the suffix; it is the general intent when no token is
    a key. *)
Definition first_keyword_intent (tokens : list string) (r : string) : Prop :=
  (exists before t category after,
      tokens = (before ++ t :: after)%list
      /\ no_service_keyword before
      /\ SERVICE_KEYWORDS !! t = Some category
      /\ r = category +:+ "_service")
  \/ (no_service_keyword tokens /\ r = "general_service").

(** Nothing in the query matches any of the four tables. *)
Definition no_keyword_match (q : string) : Prop :=
  let normalized := normalize q in
  let tokens := tokenize normalized in
  no_service_keyword tokens
  /\ Forall (fun t => t ∉ SERVICE_TYPES) tokens
  /\ no_phrase_in URGENCY_KEYWORDS normalized
  /\ no_phrase_in BUDGET_KEYWORDS normalized.

(** Every character satisfies [p]. *)
Fixpoint all_chars (p : ascii -> bool) (s : string) : bool :=
  match s with
  | EmptyString => true
  | String c r => p c && all_chars p r
  end.

(** The query is made of whitespace and punctuation only (the empty string
    included). *)
Definition blank_or_punct (q : string) : Prop :=
  all_chars (fun c => is_space c || is_punct c) q = true.

(** The record produced when nothing matches. *)
Definition fallback_record (r : ParsedQuery.t) : Prop :=
  ParsedQuery.primary_intent r = "general_service"
  /\ ParsedQuery.service_type r = None
  /\ ParsedQuery.urgency r = None
  /\ ParsedQuery.budget_sensitivity r = None
  /\ ParsedQuery.quantum_ready_vector r = Some [0.0; 0.0; 0.0]%float.

(** The intents that the pipeline produces and [intent_map] does not list. *)
Definition unmapped_intents : list string :=
  [ "leak_service"; "drain_service"; "toilet_service" ].

(** The two records agree on every input field. *)
Definition same_request (p1 p2 : RawQuery.t) : Prop :=
  RawQuery.query p1 = RawQuery.query p2
  /\ RawQuery.user_role p1 = RawQuery.user_role p2
  /\ RawQuery.location p1 = RawQuery.location p2
  /\ RawQuery.channel p1 = RawQuery.channel p2.

(** The shape of a normalized text: lowercase letters, digits and single
    spaces.  [after_space] tells that the previous character was a space (or
    that the text starts here), so that a space may not come next. *)
Fixpoint spaced (after_space : bool) (s : string) : bool :=
  match s with
  | EmptyString => true
  | String c r =>
      if Ascii.eqb c " "%char then negb after_space && spaced true r
      else is_lower_alnum c && spaced false r
  end.

(** The characters of [s] that satisfy [p], in order. *)
Fixpoint keep_chars (p : ascii -> bool) (s : string) : string :=
  match s with
  | EmptyString => EmptyString
  | String c r => if p c then String c (keep_chars p r) else keep_chars p r
  end.

(** The letters and digits of a text as the normalizer reads them: the
    characters of the lowercased text that are in [[a-z0-9]]. *)
Definition alnum_content (text : string) : string :=
  keep_chars is_lower_alnum (lower text).

(** [sep.join(words)] *)
Fixpoint join (sep : string) (words : list string) : string :=
  match words with
  | [] => ""
  | [w] => w
  | w :: rest => w +:+ sep +:+ join sep rest
  end.

(** The fields of the record that the classifiers produce. *)
Definition classification (r : ParsedQuery.t)
  : string * option string * option string * option string
    * option (list float) :=
  (ParsedQuery.primary_intent r, ParsedQuery.service_type r,
   ParsedQuery.urgency r, ParsedQuery.budget_sensitivity r,
   ParsedQuery.quantum_ready_vector r).

(** [r] is the earliest token that is one of the service types, verbatim; it
    is [None] when no token is one. *)
Definition first_service_type (tokens : list string) (r : option string)
  : Prop :=
  (exists before t after,
      tokens = (before ++ t :: after)%list
      /\ Forall (fun u => u ∉ SERVICE_TYPES) before
      /\ t ∈ SERVICE_TYPES
      /\ r = Some t)
  \/ (Forall (fun u => u ∉ SERVICE_TYPES) tokens /\ r = None).

(** ** Proof automation *)

(** A fact about one character, settled on each of the 256 characters. *)
Ltac by_cases_on_char c :=
  destruct c as [[] [] [] [] [] [] [] []]; vm_compute; intuition congruence.

(** ** Checks on the sample runs *)

Example normalize_plumber :
  normalize (RawQuery.query plumber_query)
  = "i need a cheap plumber in san jose asap".
Proof. reflexivity. Qed.

Example tokenize_plumber :
  tokenize (normalize (RawQuery.query plumber_query))
  = ["cheap"; "plumber"; "san"; "jose"; "asap"].
Proof. reflexivity. Qed.

Example tokenize_roof :
  tokenize (normalize (RawQuery.query roof_query))
  = ["roof"; "leak"; "fair"; "price"; "whenever"; "fine"].
Proof. reflexivity. Qed.

Example normalize_strips : normalize "  Hello,,  World!!  " = "hello world".
Proof. reflexivity. Qed.

Example furnace_run :
  let r := parse_query
             (RawQuery.of_query "furnace stopped working, need it fixed today") in
  ParsedQuery.primary_intent r = "hvac_service"
  /\ ParsedQuery.urgency r = Some "same_day"
  /\ ParsedQuery.budget_sensitivity r = None
  /\ ParsedQuery.quantum_ready_vector r = Some [0.3; 0.7; 0.0]%float.
Proof. vm_compute. repeat split. Qed.

(** ** The fields of the parsed record *)

Section Fields.
Variable payload : RawQuery.t.

Lemma parse_primary_intent :
  ParsedQuery.primary_intent (parse_query payload)
  = extract_primary_intent (tokenize (normalize (RawQuery.query payload))).
Proof. reflexivity. Qed.

Lemma parse_service_type :
  ParsedQuery.service_type (parse_query payload)
  = extract_service_type (tokenize (normalize (RawQuery.query payload))).
Proof. reflexivity. Qed.

Lemma parse_urgency :
  ParsedQuery.urgency (parse_query payload)
  = extract_urgency (normalize (RawQuery.query payload)).
Proof. reflexivity. Qed.

Lemma parse_budget :
  ParsedQuery.budget_sensitivity (parse_query payload)
  = extract_budget (normalize (RawQuery.query payload)).
Proof. reflexivity. Qed.

Lemma parse_location :
  ParsedQuery.location (parse_query payload) = RawQuery.location payload.
Proof. reflexivity. Qed.

Lemma parse_modifiers :
  ParsedQuery.modifiers (parse_query payload)
  = set_if_truthy "channel" (RawQuery.channel payload)
      (set_if_truthy "user_role" (RawQuery.user_role payload) ∅).
Proof. reflexivity. Qed.

Lemma parse_vector :
  ParsedQuery.quantum_ready_vector (parse_query payload)
  = Some [ get_or_zero intent_map
             (extract_primary_intent
                (tokenize (normalize (RawQuery.query payload))));
           get_or_zero urgency_map
             (extract_urgency (normalize (RawQuery.query payload)));
           get_or_zero budget_map
             (extract_budget (normalize (RawQuery.query payload))) ].
Proof. reflexivity. Qed.
End Fields.

(** ** Intent extraction *)

Lemma service_keywords_categories t c :
  SERVICE_KEYWORDS !! t = Some c ->
  c ∈ ["plumbing"; "leak"; "drain"; "toilet"; "roofing"; "hvac"; "electrical";
       "cement"].
Proof.
  intros Hl. apply elem_of_list_to_map_2 in Hl.
  repeat (apply elem_of_cons in Hl as [Hl | Hl];
          [ injection Hl as -> ->; compute_done | ]).
  by apply elem_of_nil in Hl.
Qed.

Lemma extract_primary_intent_none tokens :
  no_service_keyword tokens -> extract_primary_intent tokens = "general_service".
Proof.
  induction 1 as [| t rest Ht _ IH]; simpl; [done |]. by rewrite Ht.
Qed.

Lemma extract_primary_intent_spec (tokens : list string) :
  first_keyword_intent tokens (extract_primary_intent tokens).
Proof.
  unfold first_keyword_intent. induction tokens as [| t rest IH]; simpl.
  - right. split; [constructor | done].
  - destruct (SERVICE_KEYWORDS !! t) as [c |] eqn:Hl.
    + left. exists [], t, c, rest. repeat split; [constructor | done].
    + destruct IH as [(before & t' & c' & after & -> & Hb & Ht' & ->) | [Hn ->]].
      * left. exists (t :: before), t', c', after.
        repeat split; [by constructor | done].
      * right. split; [by constructor | done].
Qed.

Lemma extract_primary_intent_range tokens :
  is_Some (intent_map !! extract_primary_intent tokens)
  \/ extract_primary_intent tokens ∈ unmapped_intents.
Proof.
  induction tokens as [| t rest IH]; simpl.
  - left. by eexists.
  - destruct (SERVICE_KEYWORDS !! t) as [c |] eqn:Hl; [| exact IH].
    apply service_keywords_categories in Hl.
    repeat (apply elem_of_cons in Hl as [-> | Hl];
            [ first [ left; by eexists | right; compute_done ] | ]).
    by apply elem_of_nil in Hl.
Qed.

(** ** Substring containment *)

Lemma prefix_spec k text :
  String.prefix k text = true <-> exists post, text = k +:+ post.
Proof.
  revert text. induction k as [| a k IH]; intros text; simpl.
  - destruct text; split; eauto.
  - destruct text as [| b text].
    + split; [done | intros [post Hp]; discriminate Hp].
    + simpl. destruct (ascii_dec a b) as [-> | Hne].
      * rewrite IH. split; intros [post Hp]; exists post.
        -- by rewrite Hp.
        -- by injection Hp.
      * split; [done | intros [post Hp]]. injection Hp as Hab _. congruence.
Qed.

Lemma str_in_spec k text : str_in k text = true <-> substring k text.
Proof.
  unfold substring. induction text as [| c text IH].
  - cbn [str_in]. rewrite orb_false_r, prefix_spec. split.
    + intros [post Hp]. by exists "", post.
    + intros [[| ? pre] [post Hp]]; [by exists post | discriminate Hp].
  - cbn [str_in]. rewrite orb_true_iff, prefix_spec, IH. split.
    + intros [[post Hp] | (pre & post & Hp)].
      * by exists "", post.
      * exists (String c pre), post. simpl. by rewrite Hp.
    + intros [[| a pre] [post Hp]].
      * left. by exists post.
      * right. exists pre, post. simpl in Hp. by injection Hp.
Qed.

Lemma str_in_false k text : str_in k text = false <-> ~ substring k text.
Proof. rewrite <- str_in_spec. by destruct (str_in k text). Qed.

Lemma first_item_in_none items text :
  no_phrase_in items text -> first_item_in items text = None.
Proof.
  induction 1 as [| [k v] rest Hk _ IH]; simpl in *; [done |].
  apply str_in_false in Hk. by rewrite Hk.
Qed.

(** The loop returns the label of the first item, in list order, whose phrase
    occurs in the text. *)
Lemma first_item_in_spec (items : list (string * string)) (text : string) :
  first_phrase_label items text (first_item_in items text).
Proof.
  unfold first_phrase_label. induction items as [| [k v] rest IH]; simpl.
  - right. split; [constructor | done].
  - destruct (str_in k text) eqn:Hk.
    + left. exists [], k, v, rest. repeat split; [constructor |].
      by apply str_in_spec.
    + apply str_in_false in Hk.
      destruct IH as [(before & k' & v' & after & -> & Hb & Hk' & ->) | [Hn ->]].
      * left. exists ((k, v) :: before), k', v', after.
        repeat split; [by constructor | done].
      * right. split; [by constructor | done].
Qed.

(** ** The normalizer *)

Lemma lower_alnum_char c :
  is_lower_alnum c = true ->
  lower_char c = c /\ is_space c = false /\ Ascii.eqb c " " = false.
Proof. by_cases_on_char c. Qed.

Lemma blank_char c :
  is_space c || is_punct c = true ->
  lower_char c = c /\ is_lower_alnum c = false.
Proof. by_cases_on_char c. Qed.

(** Case analysis on a character of a text of the normalized shape. *)
Lemma spaced_cons b c r :
  spaced b (String c r) = true ->
  (c = " "%char /\ b = false /\ spaced true r = true)
  \/ (is_lower_alnum c = true /\ Ascii.eqb c " " = false
      /\ spaced false r = true).
Proof.
  simpl. destruct (Ascii.eqb_spec c " ") as [-> | Hne].
  - rewrite andb_true_iff, negb_true_iff. intuition.
  - rewrite andb_true_iff. intuition.
Qed.

Lemma spaced_alnum b c r :
  is_lower_alnum c = true -> spaced b (String c r) = spaced false r.
Proof.
  intros Hc. cbn [spaced].
  destruct (lower_alnum_char c Hc) as (_ & _ & ->). by rewrite Hc.
Qed.

Lemma spaced_weaken s : spaced true s = true -> spaced false s = true.
Proof.
  destruct s as [| c r]; [done |]. simpl.
  destruct (Ascii.eqb c " "); [done | done].
Qed.

Lemma lower_spaced b s : spaced b s = true -> lower s = s.
Proof.
  revert b. induction s as [| c r IH]; intros b Hs; [done |].
  apply spaced_cons in Hs as [(-> & _ & Hr) | (Hc & _ & Hr)]; simpl.
  - by rewrite (IH _ Hr).
  - apply lower_alnum_char in Hc as [-> _]. by rewrite (IH _ Hr).
Qed.

Lemma sub_non_alnum_spaced b s : spaced b s = true -> sub_non_alnum s = s.
Proof.
  revert b. induction s as [| c r IH]; intros b Hs; [done |].
  apply spaced_cons in Hs as [(-> & _ & Hr) | (Hc & _ & Hr)]; simpl.
  - by rewrite (IH _ Hr).
  - by rewrite Hc, (IH _ Hr).
Qed.

Lemma sub_spaces_spaced b s : spaced b s = true -> sub_spaces b s = s.
Proof.
  revert b. induction s as [| c r IH]; intros b Hs; [done |].
  apply spaced_cons in Hs as [(-> & -> & Hr) | (Hc & _ & Hr)]; simpl.
  - by rewrite (IH _ Hr).
  - apply lower_alnum_char in Hc as (_ & -> & _). by rewrite (IH _ Hr).
Qed.

Lemma lstrip_spaced_id s : spaced true s = true -> lstrip s = s.
Proof.
  destruct s as [| c r]; [done |]. intros Hs.
  apply spaced_cons in Hs as [(_ & [=] & _) | (Hc & _ & _)]. simpl.
  apply lower_alnum_char in Hc as (_ & -> & _). done.
Qed.

Lemma all_chars_sub_non_alnum s :
  all_chars (fun c => is_lower_alnum c || is_space c) (sub_non_alnum s) = true.
Proof.
  induction s as [| c r IH]; [done |]. simpl. rewrite IH, andb_true_r.
  by destruct (is_lower_alnum c || is_space c) eqn:Hc.
Qed.

Lemma spaced_sub_spaces b s :
  all_chars (fun c => is_lower_alnum c || is_space c) s = true ->
  spaced b (sub_spaces b s) = true.
Proof.
  revert b. induction s as [| c r IH]; intros b Hs; [done |].
  simpl in Hs. apply andb_true_iff in Hs as [Hc Hr]. simpl.
  destruct (is_space c) eqn:Hsp.
  - destruct b; [by apply IH |]. simpl. by apply IH.
  - rewrite orb_false_r in Hc. simpl.
    destruct (lower_alnum_char c Hc) as (_ & _ & ->). rewrite Hc. by apply IH.
Qed.

Lemma spaced_lstrip b s : spaced b s = true -> spaced true (lstrip s) = true.
Proof.
  revert b. induction s as [| c r IH]; intros b Hs; [done |].
  destruct (spaced_cons _ _ _ Hs) as [(-> & _ & Hr) | (Hc & Hne & Hr)]; simpl.
  - by apply (IH true).
  - destruct (lower_alnum_char c Hc) as (_ & -> & _). simpl.
    by rewrite Hne, Hc.
Qed.

Lemma spaced_rstrip b s : spaced b s = true -> spaced b (rstrip s) = true.
Proof.
  revert b. induction s as [| c r IH]; intros b Hs; [done |].
  destruct (spaced_cons _ _ _ Hs) as [(-> & -> & Hr) | (Hc & Hne & Hr)];
    simpl; apply IH in Hr.
  - destruct (rstrip r); [done | exact Hr].
  - destruct (lower_alnum_char c Hc) as (_ & -> & _).
    destruct (rstrip r); by rewrite spaced_alnum.
Qed.

Lemma rstrip_idem s : rstrip (rstrip s) = rstrip s.
Proof.
  induction s as [| c r IH]; [done |]. simpl.
  destruct (rstrip r) as [| c' r'] eqn:Hr.
  - destruct (is_space c) eqn:Hc; [done |]. simpl. by rewrite Hc.
  - change (rstrip (String c (String c' r'))) with
      (match rstrip (String c' r') with
       | EmptyString => if is_space c then EmptyString else String c EmptyString
       | r'' => String c r''
       end).
    by rewrite IH.
Qed.

(** The output of the normalizer has the normalized shape and no trailing
    space. *)
Lemma normalize_shape text :
  spaced true (normalize text) = true
  /\ rstrip (normalize text) = normalize text.
Proof.
  unfold normalize, strip. split; [| apply rstrip_idem].
  apply spaced_rstrip, (spaced_lstrip false), spaced_sub_spaces,
    all_chars_sub_non_alnum.
Qed.

(** A text of that shape is left as it is. *)
Lemma normalize_fixpoint s :
  spaced true s = true -> rstrip s = s -> normalize s = s.
Proof.
  intros Hs Hr. unfold normalize, strip.
  rewrite (lower_spaced _ _ Hs), (sub_non_alnum_spaced _ _ Hs).
  rewrite (sub_spaces_spaced _ _ (spaced_weaken _ Hs)).
  by rewrite (lstrip_spaced_id _ Hs).
Qed.

Lemma all_space_blank q :
  blank_or_punct q ->
  all_chars is_space (sub_non_alnum (lower q)) = true.
Proof.
  unfold blank_or_punct. induction q as [| c r IH]; [done |]. simpl.
  rewrite andb_true_iff. intros [Hc Hr]. rewrite (IH Hr), andb_true_r.
  destruct (blank_char c Hc) as [-> ->]. rewrite orb_false_l.
  by destruct (is_space c) eqn:Hsp.
Qed.

Lemma all_space_sub_spaces b s :
  all_chars is_space s = true -> all_chars is_space (sub_spaces b s) = true.
Proof.
  revert b. induction s as [| c r IH]; intros b; [done |]. simpl.
  rewrite andb_true_iff. intros [-> Hr]. destruct b; simpl; by apply IH.
Qed.

Lemma lstrip_all_space s : all_chars is_space s = true -> lstrip s = "".
Proof.
  induction s as [| c r IH]; [done |]. simpl.
  rewrite andb_true_iff. intros [-> Hr]. by apply IH.
Qed.

Lemma normalize_blank q : blank_or_punct q -> normalize q = "".
Proof.
  intros Hq. unfold normalize, strip.
  by rewrite (lstrip_all_space _ (all_space_sub_spaces _ _ (all_space_blank _ Hq))).
Qed.

Lemma extract_service_type_none tokens :
  Forall (fun t => t ∉ SERVICE_TYPES) tokens -> extract_service_type tokens = None.
Proof.
  induction 1 as [| t rest Ht _ IH]; simpl; [done |]. by case_decide.
Qed.

Lemma no_keyword_match_blank q : blank_or_punct q -> no_keyword_match q.
Proof.
  intros Hq. unfold no_keyword_match. rewrite (normalize_blank _ Hq).
  repeat split; try apply Forall_nil_2;
    repeat constructor; by apply str_in_false.
Qed.

Lemma set_if_truthy_lookup_eq key field (m : gmap string string) v :
  m !! key = None ->
  set_if_truthy key field m !! key = Some v <-> field = Some v /\ v <> "".
Proof.
  intros Hm. unfold set_if_truthy. destruct field as [s |].
  - case_decide as Hs.
    + rewrite Hm. split; [done | intros [[= ->] Hv]; done].
    + rewrite lookup_insert_eq. split.
      * intros [= ->]. done.
      * intros [[= ->] _]. done.
  - rewrite Hm. split; [done | intros [? _]; done].
Qed.

Lemma set_if_truthy_lookup_ne key field (m : gmap string string) k :
  k <> key -> set_if_truthy key field m !! k = m !! k.
Proof.
  intros Hk. unfold set_if_truthy. destruct field as [s |]; [| done].
  case_decide; [done |]. by rewrite lookup_insert_ne.
Qed.

(** ** Properties of the parser *)

(** C1 (as the code has it): on "roof leak, fair price please, whenever is
    fine" with the default role and channel and no location, the parser gives
    the intent "roofing_service", the urgency "flexible", the budget
    sensitivity "medium", and the service type "roof": "roof" is itself one of
    the fine-grained service types and comes before "leak". *)
Theorem roof_leak_run :
  let r := parse_query
             (RawQuery.of_query "roof leak, fair price please, whenever is fine") in
  ParsedQuery.primary_intent r = "roofing_service"
  /\ ParsedQuery.service_type r = Some "roof"
  /\ ParsedQuery.urgency r = Some "flexible"
  /\ ParsedQuery.budget_sensitivity r = Some "medium".
Proof. vm_compute. repeat split. Qed.

(** C1 fails as stated: the four values claimed for that query are not the
    ones returned, the service type is not "leak". *)
Lemma roof_leak_service_type_not_leak :
  let r := parse_query
             (RawQuery.of_query "roof leak, fair price please, whenever is fine") in
  ~ (ParsedQuery.primary_intent r = "roofing_service"
     /\ ParsedQuery.service_type r = Some "leak"
     /\ ParsedQuery.urgency r = Some "flexible"
     /\ ParsedQuery.budget_sensitivity r = Some "medium").
Proof. intros r (_ & Hst & _). vm_compute in Hst. discriminate Hst. Qed.

(** C2 (as the code has it): for every request the primary intent is a key of
    [intent_map] or one of "leak_service", "drain_service", "toilet_service";
    these three are not keys, and for them the first component of the vector
    is the 0.0 default. *)
Theorem primary_intent_mapped_or_default (payload : RawQuery.t) :
  let intent := ParsedQuery.primary_intent (parse_query payload) in
  is_Some (intent_map !! intent)
  \/ (intent ∈ unmapped_intents
      /\ intent_map !! intent = None
      /\ head <$> ParsedQuery.quantum_ready_vector (parse_query payload)
         = Some (Some 0.0%float)).
Proof.
  cbv zeta. rewrite parse_vector, parse_primary_intent.
  destruct (extract_primary_intent_range
              (tokenize (normalize (RawQuery.query payload)))) as [Hk | Hu];
    [by left | right].
  split; [done |]. unfold unmapped_intents in Hu.
  repeat (apply elem_of_cons in Hu as [-> | Hu]; [by split |]).
  by apply elem_of_nil in Hu.
Qed.

(** C2 fails as stated: the query "leak" gives an intent that is not a key of
    [intent_map]. *)
Lemma leak_intent_unmapped :
  ParsedQuery.primary_intent (parse_query (RawQuery.of_query "leak"))
  = "leak_service"
  /\ intent_map !! ParsedQuery.primary_intent
                     (parse_query (RawQuery.of_query "leak")) = None.
Proof. by vm_compute. Qed.

(** C3: for every list of tokens the intent extractor returns the category of
    the earliest token that is a key of the service keyword table, with
    "_service" appended, and "general_service" when no token is a key; on
    ["plumber"; "roof"], two keys, it returns "plumbing_service", and on the
    same two tokens in the other order it returns "roofing_service". *)
Theorem extract_primary_intent_first_match (tokens : list string) :
  first_keyword_intent tokens (extract_primary_intent tokens)
  /\ is_Some (SERVICE_KEYWORDS !! "plumber")
  /\ is_Some (SERVICE_KEYWORDS !! "roof")
  /\ extract_primary_intent ["plumber"; "roof"] = "plumbing_service"
  /\ extract_primary_intent ["plumber"; "roof"] <> "roofing_service"
  /\ extract_primary_intent ["roof"; "plumber"] = "roofing_service".
Proof.
  split; [apply extract_primary_intent_spec |].
  repeat split; try by eexists. by vm_compute.
Qed.

(** C4: the urgency extractor returns the label of the first entry of the
    urgency table, in table order, whose phrase is a substring of the text,
    and nothing when no phrase occurs; the budget extractor does the same on
    its table, which has the phrase "fair price"; the parser gives them the
    whole normalized text, so a phrase of two words is found. *)
Theorem extract_urgency_budget_first_phrase
    (text : string) (payload : RawQuery.t) :
  first_phrase_label URGENCY_KEYWORDS text (extract_urgency text)
  /\ first_phrase_label BUDGET_KEYWORDS text (extract_budget text)
  /\ ("fair price", "medium") ∈ BUDGET_KEYWORDS
  /\ ParsedQuery.urgency (parse_query payload)
     = extract_urgency (normalize (RawQuery.query payload))
  /\ ParsedQuery.budget_sensitivity (parse_query payload)
     = extract_budget (normalize (RawQuery.query payload))
  /\ extract_budget "a fair price" = Some "medium".
Proof.
  split; [apply first_item_in_spec |]. split; [apply first_item_in_spec |].
  split; [compute_done |]. by repeat split.
Qed.

(** C5: the parser is a total function, its record always carries a vector of
    three numbers; when no keyword of any table matches, and in particular
    when the query is empty or made of whitespace and punctuation only, the
    intent is "general_service", the service type, urgency and budget
    sensitivity are absent and the vector is [0.0, 0.0, 0.0]. *)
Theorem parse_query_fallback (payload : RawQuery.t) :
  (exists f0 f1 f2,
      ParsedQuery.quantum_ready_vector (parse_query payload)
      = Some [f0; f1; f2])
  /\ (no_keyword_match (RawQuery.query payload)
      \/ blank_or_punct (RawQuery.query payload) ->
      fallback_record (parse_query payload)).
Proof.
  split; [rewrite parse_vector; eauto |].
  intros Hq.
  assert (no_keyword_match (RawQuery.query payload)) as (Hi & Ht & Hu & Hb)
    by (destruct Hq; [done | by apply no_keyword_match_blank]).
  unfold fallback_record.
  rewrite parse_vector, parse_primary_intent, parse_service_type,
    parse_urgency, parse_budget.
  unfold extract_urgency, extract_budget.
  rewrite (extract_primary_intent_none _ Hi), (extract_service_type_none _ Ht),
    (first_item_in_none _ _ Hu), (first_item_in_none _ _ Hb).
  by repeat split.
Qed.

Lemma parse_query_fallback_witness :
  fallback_record (parse_query (RawQuery.of_query "Hello, world!"))
  /\ fallback_record (parse_query (RawQuery.of_query "  ?!  "))
  /\ fallback_record (parse_query (RawQuery.of_query "")).
Proof.
  split; [| split].
  - apply (proj2 (parse_query_fallback (RawQuery.of_query "Hello, world!"))).
    left. unfold no_keyword_match, no_service_keyword, no_phrase_in.
    replace (normalize (RawQuery.query (RawQuery.of_query "Hello, world!")))
      with "hello world" by reflexivity.
    replace (tokenize "hello world") with ["hello"; "world"] by reflexivity.
    cbv zeta. unfold URGENCY_KEYWORDS, BUDGET_KEYWORDS.
    split_and!; repeat (apply Forall_cons; split); try apply Forall_nil_2;
      first [ by apply str_in_false | compute_done ].
  - apply (proj2 (parse_query_fallback (RawQuery.of_query "  ?!  "))).
    right. reflexivity.
  - apply (proj2 (parse_query_fallback (RawQuery.of_query ""))).
    right. reflexivity.
Defined.

(** C6: on "I need a cheap plumber in San Jose ASAP" with the location
    "San Jose, CA" the parser gives the intent "plumbing_service", the
    urgency "emergency", the budget sensitivity "low", the location as it
    was given, and the vector [0.1, 1.0, 0.2]. *)
Theorem plumber_run :
  let r := parse_query
             (RawQuery.mk "I need a cheap plumber in San Jose ASAP"
                (Some "customer") (Some "San Jose, CA") (Some "web")) in
  ParsedQuery.primary_intent r = "plumbing_service"
  /\ ParsedQuery.urgency r = Some "emergency"
  /\ ParsedQuery.budget_sensitivity r = Some "low"
  /\ ParsedQuery.location r = Some "San Jose, CA"
  /\ ParsedQuery.quantum_ready_vector r = Some [0.1; 1.0; 0.2]%float.
Proof. vm_compute. repeat split. Qed.

(** C7: two requests with the same query, role, location and channel get the
    same record, every field included (the vector too). *)
Theorem parse_query_deterministic (p1 p2 : RawQuery.t) :
  same_request p1 p2 -> parse_query p1 = parse_query p2.
Proof.
  destruct p1 as [q1 r1 l1 c1], p2 as [q2 r2 l2 c2].
  intros (Hq & Hr & Hl & Hc). simpl in *. by subst.
Qed.

Lemma parse_query_deterministic_witness :
  parse_query plumber_query
  = parse_query
      (RawQuery.mk (RawQuery.query plumber_query) (Some "customer")
         (RawQuery.location plumber_query) (Some "web")).
Proof. apply parse_query_deterministic. repeat split. Defined.

(** C8 (as the code has it): the key "user_role" (resp. "channel") is in the
    modifiers of the record exactly when the input field is present and is
    not the empty string, and its value is then the field's value; the
    modifiers have no other key. *)
Theorem modifiers_forwarded (payload : RawQuery.t) :
  let m := ParsedQuery.modifiers (parse_query payload) in
  (forall v, m !! "user_role" = Some v
             <-> RawQuery.user_role payload = Some v /\ v <> "")
  /\ (forall v, m !! "channel" = Some v
                <-> RawQuery.channel payload = Some v /\ v <> "")
  /\ (forall k, is_Some (m !! k) -> k = "user_role" \/ k = "channel").
Proof.
  cbv zeta. rewrite parse_modifiers.
  set (m1 := set_if_truthy "user_role" (RawQuery.user_role payload) ∅).
  assert (m1 !! "channel" = None) as Hc1
    by (unfold m1; by rewrite set_if_truthy_lookup_ne).
  split_and!.
  - intros v. rewrite set_if_truthy_lookup_ne by done.
    by apply set_if_truthy_lookup_eq.
  - intros v. by apply set_if_truthy_lookup_eq.
  - intros k Hk. destruct (decide (k = "channel")) as [| Hc]; [by right |].
    destruct (decide (k = "user_role")) as [| Hr]; [by left |].
    rewrite set_if_truthy_lookup_ne in Hk by done. unfold m1 in Hk.
    rewrite set_if_truthy_lookup_ne in Hk by done.
    by apply is_Some_None in Hk.
Qed.

(** C8 fails as stated: a role that is present and is the empty string is not
    forwarded. *)
Lemma empty_role_not_forwarded :
  let payload := RawQuery.mk "plumber" (Some "") None (Some "web") in
  RawQuery.user_role payload = Some ""
  /\ ParsedQuery.modifiers (parse_query payload) !! "user_role" = None.
Proof. by vm_compute. Qed.

(** C9: the normalizer is idempotent. *)
Theorem normalize_idempotent (t : string) :
  normalize (normalize t) = normalize t.
Proof.
  destruct (normalize_shape t) as [Hs Hr]. by apply normalize_fixpoint.
Qed.

(** C10: matching is substring containment: the query "I know a plumber" has
    no urgency phrase among the words of its normalized text, and the parser
    still gives it the urgency "emergency", because "now" occurs in "know". *)
Theorem urgency_matches_inside_words :
  exists q : string,
    Forall (fun kv => kv.1 ∉ split (normalize q)) URGENCY_KEYWORDS
    /\ "know" ∈ split (normalize q)
    /\ substring "now" "know"
    /\ ParsedQuery.urgency (parse_query (RawQuery.of_query q))
       = Some "emergency".
Proof.
  exists "I know a plumber". split; [compute_done |]. split; [compute_done |].
  split; [by exists "k", "" | done].
Qed.

(** ** More on the normalizer *)

Lemma spaced_chars b s :
  spaced b s = true ->
  all_chars (fun c => is_lower_alnum c || Ascii.eqb c " ") s = true.
Proof.
  revert b. induction s as [| c r IH]; intros b Hs; [done |].
  apply spaced_cons in Hs as [(-> & _ & Hr) | (Hc & _ & Hr)]; simpl.
  - by apply (IH true).
  - rewrite Hc. by apply (IH false).
Qed.

Lemma spaced_no_double_space b s : spaced b s = true -> ~ substring "  " s.
Proof.
  intros Hs (pre & post & ->). revert b Hs.
  induction pre as [| c pre IH]; intros b Hs.
  - simpl in Hs. by rewrite andb_false_r in Hs.
  - change (spaced b (String c (pre +:+ "  " +:+ post)) = true) in Hs.
    apply spaced_cons in Hs as [(_ & _ & Hr) | (_ & _ & Hr)]; eauto.
Qed.

Lemma rstrip_app_space s : rstrip (s +:+ " ") = rstrip s.
Proof.
  induction s as [| c r IH]; [done |].
  change (String c r +:+ " ") with (String c (r +:+ " ")).
  cbn [rstrip]. by rewrite IH.
Qed.





Lemma length_rstrip s : (String.length (rstrip s) <= String.length s)%nat.
Proof.
  induction s as [| c r IH]; simpl; [done |].
  destruct (rstrip r); [destruct (is_space c) |]; simpl in *; lia.
Qed.

Lemma length_app_space s :
  String.length (s +:+ " ") = S (String.length s).
Proof. induction s as [| c r IH]; simpl; congruence. Qed.

(** X1: the normalized text is made of [a-z0-9] and spaces only, has no two
    spaces in a row, and neither starts nor ends with a space. *)
Theorem normalize_output_shape (t : string) :
  all_chars (fun c => is_lower_alnum c || Ascii.eqb c " ") (normalize t) = true
  /\ ~ substring "  " (normalize t)
  /\ ~ (exists r, normalize t = String " " r)
  /\ ~ (exists r, normalize t = r +:+ " ").
Proof.
  destruct (normalize_shape t) as [Hs Hr]. split_and!.
  - by apply (spaced_chars true).
  - by apply (spaced_no_double_space true).
  - intros [r Hn]. rewrite Hn in Hs. discriminate Hs.
  - intros [r Hn]. rewrite Hn, rstrip_app_space in Hr.
    pose proof (length_rstrip r) as Hl. rewrite Hr, length_app_space in Hl.
    lia.
Qed.


Lemma space_not_alnum c : is_space c = true -> is_lower_alnum c = false.
Proof. by_cases_on_char c. Qed.

Lemma lower_char_idem c : lower_char (lower_char c) = lower_char c.
Proof. by_cases_on_char c. Qed.

Lemma lower_idem s : lower (lower s) = lower s.
Proof.
  induction s as [| c r IH]; [done |]. simpl. by rewrite lower_char_idem, IH.
Qed.

Lemma keep_sub_non_alnum s :
  keep_chars is_lower_alnum (sub_non_alnum s) = keep_chars is_lower_alnum s.
Proof.
  induction s as [| c r IH]; [done |]. simpl. rewrite IH.
  destruct (is_lower_alnum c) eqn:Hc; simpl; [by rewrite Hc |].
  destruct (is_space c); [by rewrite Hc | done].
Qed.

Lemma keep_sub_spaces b s :
  keep_chars is_lower_alnum (sub_spaces b s) = keep_chars is_lower_alnum s.
Proof.
  revert b. induction s as [| c r IH]; intros b; [done |]. simpl.
  destruct (is_space c) eqn:Hc.
  - rewrite (space_not_alnum c Hc). destruct b; simpl; apply IH.
  - simpl. by rewrite IH.
Qed.

Lemma keep_lstrip s :
  keep_chars is_lower_alnum (lstrip s) = keep_chars is_lower_alnum s.
Proof.
  induction s as [| c r IH]; [done |]. simpl.
  destruct (is_space c) eqn:Hc; [| done].
  by rewrite (space_not_alnum c Hc).
Qed.

Lemma keep_rstrip s :
  keep_chars is_lower_alnum (rstrip s) = keep_chars is_lower_alnum s.
Proof.
  induction s as [| c r IH]; [done |]. cbn [rstrip keep_chars]. rewrite <- IH.
  destruct (rstrip r) as [| c' r'].
  - destruct (is_space c) eqn:Hc; [| done].
    by rewrite (space_not_alnum c Hc).
  - done.
Qed.

Lemma keep_normalize t :
  keep_chars is_lower_alnum (normalize t) = alnum_content t.
Proof.
  unfold normalize, strip, alnum_content.
  by rewrite keep_rstrip, keep_lstrip, keep_sub_spaces, keep_sub_non_alnum.
Qed.

(** X3: the normalizer keeps every letter and digit, in order, and adds
    none: the characters of [[a-z0-9]] in the normalized text are those of
    the lowercased input. *)
Theorem normalize_keeps_alnum (t : string) :
  keep_chars is_lower_alnum (normalize t)
  = keep_chars is_lower_alnum (lower t).
Proof. apply keep_normalize. Qed.

(** X4: the normalized text is empty exactly when the input has no letter
    and no digit. *)
Theorem normalize_empty_iff (t : string) :
  normalize t = "" <-> alnum_content t = "".
Proof.
  rewrite <- keep_normalize. split; [by intros -> |].
  destruct (normalize_shape t) as [Hs _].
  destruct (normalize t) as [| c r]; [done |]. intros Hk.
  apply spaced_cons in Hs as [(_ & [=] & _) | (Hc & _ & _)].
  simpl in Hk. rewrite Hc in Hk. discriminate Hk.
Qed.

(** X5: the parser does not see the case of the query: lowercasing the query
    first changes nothing in the record. *)
Theorem parse_query_case_insensitive
    (q : string) (role loc chan : option string) :
  parse_query (RawQuery.mk (lower q) role loc chan)
  = parse_query (RawQuery.mk q role loc chan).
Proof.
  unfold parse_query. cbn [RawQuery.query RawQuery.user_role
    RawQuery.location RawQuery.channel].
  assert (normalize (lower q) = normalize q) as ->; [| done].
  unfold normalize. by rewrite lower_idem.
Qed.

(** ** Splitting and tokens *)

Lemma all_chars_app_char p s c :
  all_chars p (s +:+ String c "") = all_chars p s && p c.
Proof.
  induction s as [| a r IH]; simpl; [by rewrite andb_true_r |].
  by rewrite IH, andb_assoc.
Qed.

Lemma app_char_nonempty s c : s +:+ String c "" <> "".
Proof. by destruct s. Qed.

(** The words read by [split_from] are made of the characters of the text
    that are not whitespace. *)
Lemma split_from_chars p cur s :
  all_chars p cur = true ->
  all_chars (fun c => p c || is_space c) s = true ->
  Forall (fun w => all_chars p w = true) (split_from cur s).
Proof.
  revert cur. induction s as [| c r IH]; intros cur Hcur Hs; simpl.
  - case_decide; by repeat constructor.
  - simpl in Hs. apply andb_true_iff in Hs as [Hc Hr].
    destruct (is_space c) eqn:Hsp.
    + case_decide; [by apply IH |]. constructor; [done | by apply IH].
    + apply IH; [| done]. rewrite orb_false_r in Hc.
      by rewrite all_chars_app_char, Hcur, Hc.
Qed.

Lemma split_from_nonempty cur s :
  Forall (fun w => w <> "") (split_from cur s).
Proof.
  revert cur. induction s as [| c r IH]; intros cur; simpl.
  - case_decide; by repeat constructor.
  - destruct (is_space c); [case_decide; [done | by constructor] | done].
Qed.

Lemma all_chars_not_space_or_space s :
  all_chars (fun c => negb (is_space c) || is_space c) s = true.
Proof.
  induction s as [| c r IH]; [done |]. simpl. rewrite IH.
  by destruct (is_space c).
Qed.

Lemma all_chars_impl (p p' : ascii -> bool) s :
  (forall c, p c = true -> p' c = true) ->
  all_chars p s = true -> all_chars p' s = true.
Proof.
  intros Hp. induction s as [| c r IH]; [done |]. simpl.
  rewrite !andb_true_iff. intros [Hc Hr]. split; [by apply Hp | by apply IH].
Qed.

Lemma tokenize_subset text t : t ∈ tokenize text -> t ∈ split text.
Proof. unfold tokenize. rewrite list_elem_of_filter. by intros [_ ?]. Qed.

Lemma split_word text w :
  w ∈ split text ->
  w <> "" /\ all_chars (fun c => negb (is_space c)) w = true.
Proof.
  intros Hw. split.
  - pose proof (split_from_nonempty "" text) as Hn.
    rewrite Forall_forall in Hn. by apply Hn.
  - assert (Forall (fun w => all_chars (fun c => negb (is_space c)) w = true)
              (split text)) as Hc
      by (apply split_from_chars; [done | apply all_chars_not_space_or_space]).
    rewrite Forall_forall in Hc. by apply Hc.
Qed.

Lemma split_normalize_word q w :
  w ∈ split (normalize q) -> all_chars is_lower_alnum w = true.
Proof.
  intros Hw.
  assert (Forall (fun w => all_chars is_lower_alnum w = true)
            (split (normalize q))) as Hc.
  { apply split_from_chars; [done |].
    destruct (normalize_shape q) as [Hs _]. apply spaced_chars in Hs.
    revert Hs. apply all_chars_impl. intros c.
    rewrite !orb_true_iff. intros [? | Hc]; [by left | right].
    by apply Ascii.eqb_eq in Hc as ->. }
  rewrite Forall_forall in Hc. by apply Hc.
Qed.

(** X6: the tokenizer gives the words of the text in their order, without
    the stopwords; no token is empty and no token has a whitespace
    character. *)
Theorem tokenize_tokens (text : string) :
  sublist (tokenize text) (split text)
  /\ Forall (fun t => (t ∉ STOPWORDS) /\ t <> ""
                      /\ all_chars (fun c => negb (is_space c)) t = true)
       (tokenize text)
  /\ (forall w, w ∈ split text -> w ∈ STOPWORDS \/ w ∈ tokenize text).
Proof.
  split_and!.
  - apply sublist_filter.
  - apply Forall_forall. intros t Ht. split.
    + unfold tokenize in Ht. apply list_elem_of_filter in Ht. by destruct Ht.
    + by apply (split_word text), tokenize_subset.
  - intros w Hw. destruct (decide (w ∈ STOPWORDS)) as [| Hn]; [by left |].
    right. unfold tokenize. by apply list_elem_of_filter.
Qed.

(** X7: in the parser every token is a non-empty word of [a-z0-9]
    characters that is not a stopword. *)
Theorem parse_tokens_alnum (q : string) :
  Forall (fun t => t <> "" /\ all_chars is_lower_alnum t = true
                   /\ t ∉ STOPWORDS)
    (tokenize (normalize q)).
Proof.
  apply Forall_forall. intros t Ht. split_and!.
  - by apply (split_word (normalize q)), tokenize_subset.
  - by apply (split_normalize_word q), tokenize_subset.
  - unfold tokenize in Ht. apply list_elem_of_filter in Ht. by destruct Ht.
Qed.

(** X8: the service keyword "air conditioner" is never matched: it has a
    space, and a token never has one, whatever the text. *)
Theorem air_conditioner_never_a_token (text : string) :
  is_Some (SERVICE_KEYWORDS !! "air conditioner")
  /\ "air conditioner" ∉ tokenize text.
Proof.
  split; [by eexists |]. intros Ht.
  apply tokenize_subset, split_word in Ht as [_ Ht]. discriminate Ht.
Qed.

(** ** More on the extractors *)

Lemma extract_service_type_spec (tokens : list string) :
  first_service_type tokens (extract_service_type tokens).
Proof.
  unfold first_service_type. induction tokens as [| t rest IH]; simpl.
  - right. split; [constructor | done].
  - case_decide as Ht.
    + left. exists [], t, rest. repeat split; [constructor | done].
    + destruct IH as [(before & t' & after & -> & Hb & Ht' & ->) | [Hn ->]].
      * left. exists (t :: before), t', after.
        repeat split; [by constructor | done].
      * right. split; [by constructor | done].
Qed.

Lemma category_not_general t c :
  SERVICE_KEYWORDS !! t = Some c -> c +:+ "_service" <> "general_service".
Proof.
  intros Hl. apply service_keywords_categories in Hl.
  repeat (apply elem_of_cons in Hl as [-> | Hl]; [done |]).
  by apply elem_of_nil in Hl.
Qed.

Lemma extract_primary_intent_general (tokens : list string) :
  extract_primary_intent tokens = "general_service"
  <-> no_service_keyword tokens.
Proof.
  split; [| apply extract_primary_intent_none].
  induction tokens as [| t rest IH]; cbn [extract_primary_intent];
    [constructor |].
  destruct (SERVICE_KEYWORDS !! t) as [c |] eqn:Hl.
  - intros Hc. by apply category_not_general in Hl.
  - intros Hr. constructor; [done | by apply IH].
Qed.

Lemma service_types_are_keywords t :
  t ∈ SERVICE_TYPES -> is_Some (SERVICE_KEYWORDS !! t).
Proof.
  unfold SERVICE_TYPES. intros Ht.
  repeat (apply elem_of_cons in Ht as [-> | Ht]; [by eexists |]).
  by apply elem_of_nil in Ht.
Qed.

(** X9: the service type extractor returns, verbatim, the earliest token that
    is one of the seven service types, and nothing when no token is one. *)
Theorem extract_service_type_first_match (tokens : list string) :
  first_service_type tokens (extract_service_type tokens).
Proof. apply extract_service_type_spec. Qed.

(** X10: the intent is "general_service" exactly when no token is a key of
    the service keyword table: no keyword maps to the general intent. *)
Theorem general_intent_iff_no_keyword (tokens : list string) :
  extract_primary_intent tokens = "general_service"
  <-> no_service_keyword tokens.
Proof. apply extract_primary_intent_general. Qed.

(** X11: every service type is also a service keyword, so a list of tokens
    that has a service type never has the general intent. *)
Theorem service_type_implies_intent (tokens : list string) :
  is_Some (extract_service_type tokens) ->
  extract_primary_intent tokens <> "general_service".
Proof.
  intros [st Hst] Hg. apply extract_primary_intent_general in Hg.
  destruct (extract_service_type_spec tokens)
    as [(before & t & after & -> & _ & Ht & _) | [_ Hn]]; [| congruence].
  apply service_types_are_keywords in Ht as [c Hc].
  apply Forall_app in Hg as [_ Hg]. apply Forall_cons in Hg as [Hg _].
  congruence.
Qed.

Lemma service_type_implies_intent_witness :
  extract_primary_intent ["fix"; "pipe"; "drain"] <> "general_service".
Proof. apply service_type_implies_intent. by eexists. Defined.

Lemma extract_urgency_tests text :
  extract_urgency text
  = if str_in "now" text
       || (str_in "asap" text || (str_in "urgent" text || str_in "tonight" text))
    then Some "emergency"
    else if str_in "today" text then Some "same_day"
    else if str_in "tomorrow" text then Some "soon"
    else if str_in "whenever" text then Some "flexible"
    else None.
Proof.
  unfold extract_urgency, URGENCY_KEYWORDS. cbn [first_item_in].
  by destruct (str_in "now" text), (str_in "asap" text),
    (str_in "urgent" text), (str_in "tonight" text).
Qed.

Lemma extract_budget_tests text :
  extract_budget text
  = if str_in "cheap" text
       || (str_in "affordable" text || str_in "budget" text)
    then Some "low"
    else if str_in "expensive" text || str_in "premium" text then Some "high"
    else if str_in "fair price" text then Some "medium"
    else None.
Proof.
  unfold extract_budget, BUDGET_KEYWORDS. cbn [first_item_in].
  by destruct (str_in "cheap" text), (str_in "affordable" text),
    (str_in "budget" text), (str_in "expensive" text),
    (str_in "premium" text).
Qed.

(** X12: the urgency labels have a priority given by the table order: the
    label is "emergency" when one of "now", "asap", "urgent", "tonight"
    occurs; else "same_day" when "today" occurs; else "soon" when "tomorrow"
    occurs; else "flexible" when "whenever" occurs. *)
Theorem urgency_priority (text : string) :
  let emergency :=
    substring "now" text \/ substring "asap" text
    \/ substring "urgent" text \/ substring "tonight" text in
  (extract_urgency text = Some "emergency" <-> emergency)
  /\ (extract_urgency text = Some "same_day"
      <-> ~ emergency /\ substring "today" text)
  /\ (extract_urgency text = Some "soon"
      <-> ~ emergency /\ ~ substring "today" text
          /\ substring "tomorrow" text)
  /\ (extract_urgency text = Some "flexible"
      <-> ~ emergency /\ ~ substring "today" text
          /\ ~ substring "tomorrow" text /\ substring "whenever" text).
Proof.
  cbv zeta. rewrite <- !str_in_spec, <- !orb_true_iff, extract_urgency_tests.
  destruct (str_in "now" text || _), (str_in "today" text),
    (str_in "tomorrow" text), (str_in "whenever" text);
    intuition congruence.
Qed.

(** X13: the budget labels have a priority given by the table order: the
    label is "low" when one of "cheap", "affordable", "budget" occurs; else
    "high" when "expensive" or "premium" occurs; else "medium" when
    "fair price" occurs. *)
Theorem budget_priority (text : string) :
  let low :=
    substring "cheap" text \/ substring "affordable" text
    \/ substring "budget" text in
  let high := substring "expensive" text \/ substring "premium" text in
  (extract_budget text = Some "low" <-> low)
  /\ (extract_budget text = Some "high" <-> ~ low /\ high)
  /\ (extract_budget text = Some "medium"
      <-> ~ low /\ ~ high /\ substring "fair price" text).
Proof.
  cbv zeta. rewrite <- !str_in_spec, <- !orb_true_iff, extract_budget_tests.
  destruct (str_in "cheap" text || _), (str_in "expensive" text || _),
    (str_in "fair price" text);
    intuition congruence.
Qed.

Lemma extract_urgency_range text :
  extract_urgency text
  ∈ [ None; Some "emergency"; Some "same_day"; Some "soon"; Some "flexible" ].
Proof.
  rewrite extract_urgency_tests.
  destruct (str_in "now" text || _), (str_in "today" text),
    (str_in "tomorrow" text), (str_in "whenever" text); compute_done.
Qed.

Lemma extract_budget_range text :
  extract_budget text ∈ [ None; Some "low"; Some "high"; Some "medium" ].
Proof.
  rewrite extract_budget_tests.
  destruct (str_in "cheap" text || _); [compute_done |].
  destruct (str_in "expensive" text || _); [compute_done |].
  destruct (str_in "fair price" text); compute_done.
Qed.

(** X14: the urgency and the budget sensitivity of a parsed record are
    absent or one of the labels of their tables, and each is a key of the
    map that gives its number: for these two the 0.0 default of the lookup
    is never used. *)
Theorem urgency_budget_always_mapped (payload : RawQuery.t) :
  let r := parse_query payload in
  ParsedQuery.urgency r
  ∈ [ None; Some "emergency"; Some "same_day"; Some "soon"; Some "flexible" ]
  /\ ParsedQuery.budget_sensitivity r
     ∈ [ None; Some "low"; Some "high"; Some "medium" ]
  /\ is_Some (urgency_map !! ParsedQuery.urgency r)
  /\ is_Some (budget_map !! ParsedQuery.budget_sensitivity r).
Proof.
  cbv zeta. rewrite parse_urgency, parse_budget.
  pose proof (extract_urgency_range (normalize (RawQuery.query payload))) as Hu.
  pose proof (extract_budget_range (normalize (RawQuery.query payload))) as Hb.
  split_and!; [done | done | |].
  - repeat (apply elem_of_cons in Hu as [-> | Hu]; [by eexists |]).
    by apply elem_of_nil in Hu.
  - repeat (apply elem_of_cons in Hb as [-> | Hb]; [by eexists |]).
    by apply elem_of_nil in Hb.
Qed.

(** Two different float literals are not equal. *)
Ltac float_neq H :=
  match type of H with
  | ?a = _ =>
      apply (f_equal (fun x => PrimFloat.eqb x a)) in H;
      vm_compute in H; discriminate H
  end.

Lemma urgency_val_inj u1 u2 :
  u1 ∈ [ None; Some "emergency"; Some "same_day"; Some "soon"; Some "flexible" ] ->
  u2 ∈ [ None; Some "emergency"; Some "same_day"; Some "soon"; Some "flexible" ] ->
  get_or_zero urgency_map u1 = get_or_zero urgency_map u2 -> u1 = u2.
Proof.
  intros H1 H2.
  repeat (apply elem_of_cons in H1 as [-> | H1]);
    try (by apply elem_of_nil in H1);
    repeat (apply elem_of_cons in H2 as [-> | H2]);
    try (by apply elem_of_nil in H2);
    intros H; first [ reflexivity | vm_compute in H; float_neq H ].
Qed.

Lemma budget_val_inj b1 b2 :
  b1 ∈ [ None; Some "low"; Some "high"; Some "medium" ] ->
  b2 ∈ [ None; Some "low"; Some "high"; Some "medium" ] ->
  get_or_zero budget_map b1 = get_or_zero budget_map b2 -> b1 = b2.
Proof.
  intros H1 H2.
  repeat (apply elem_of_cons in H1 as [-> | H1]);
    try (by apply elem_of_nil in H1);
    repeat (apply elem_of_cons in H2 as [-> | H2]);
    try (by apply elem_of_nil in H2);
    intros H; first [ reflexivity | vm_compute in H; float_neq H ].
Qed.

(** X15: the vector tells the urgency and the budget sensitivity: two parsed
    records with the same vector have the same urgency and the same budget
    sensitivity. *)
Theorem vector_determines_urgency_budget (p1 p2 : RawQuery.t) :
  ParsedQuery.quantum_ready_vector (parse_query p1)
  = ParsedQuery.quantum_ready_vector (parse_query p2) ->
  ParsedQuery.urgency (parse_query p1) = ParsedQuery.urgency (parse_query p2)
  /\ ParsedQuery.budget_sensitivity (parse_query p1)
     = ParsedQuery.budget_sensitivity (parse_query p2).
Proof.
  rewrite !parse_vector, !parse_urgency, !parse_budget.
  intros [= _ Hu Hb]. split.
  - apply urgency_val_inj; [apply extract_urgency_range .. | done].
  - apply budget_val_inj; [apply extract_budget_range .. | done].
Qed.

Lemma vector_determines_urgency_budget_witness :
  ParsedQuery.urgency (parse_query (RawQuery.of_query "plumber asap, cheap"))
  = ParsedQuery.urgency
      (parse_query (RawQuery.of_query "Budget plumbing job, urgent!"))
  /\ ParsedQuery.budget_sensitivity
       (parse_query (RawQuery.of_query "plumber asap, cheap"))
     = ParsedQuery.budget_sensitivity
         (parse_query (RawQuery.of_query "Budget plumbing job, urgent!")).
Proof. apply vector_determines_urgency_budget. reflexivity. Defined.

(** X16: the classification depends on the request through the normalized
    query only: two requests whose queries have the same normalized text get
    the same intent, service type, urgency, budget sensitivity and vector,
    whatever their roles, locations and channels. *)
Theorem classification_by_normalized_query (p1 p2 : RawQuery.t) :
  normalize (RawQuery.query p1) = normalize (RawQuery.query p2) ->
  classification (parse_query p1) = classification (parse_query p2).
Proof.
  intros Hn. unfold classification.
  by rewrite !parse_primary_intent, !parse_service_type, !parse_urgency,
    !parse_budget, !parse_vector, Hn.
Qed.

Lemma classification_by_normalized_query_witness :
  classification
    (parse_query (RawQuery.mk "  ROOF -- leak!!" (Some "homeowner")
                    (Some "Reno") None))
  = classification (parse_query (RawQuery.of_query "roof leak")).
Proof. apply classification_by_normalized_query. reflexivity. Defined.

(** ** Words of a normalized text *)

Lemma app_cons c (s r : string) : String c s +:+ r = String c (s +:+ r).
Proof. reflexivity. Qed.

Lemma app_empty_r (s : string) : s +:+ "" = s.
Proof. induction s as [| c r IH]; [done |]. by rewrite app_cons, IH. Qed.

Lemma app_char_l (s r : string) c :
  (s +:+ String c "") +:+ r = s +:+ String c r.
Proof. induction s as [| a s IH]; [done |]. by rewrite !app_cons, IH. Qed.

Lemma rstrip_fixed_tail c r :
  rstrip (String c r) = String c r -> rstrip r = r.
Proof.
  cbn [rstrip]. destruct (rstrip r) as [| c' r'] eqn:Hr.
  - destruct (is_space c); [done |]. by intros [= <-].
  - by intros [= <-].
Qed.

Lemma join_cons (sep w : string) (rest : list string) :
  rest <> [] -> join sep (w :: rest) = w +:+ sep +:+ join sep rest.
Proof. by destruct rest. Qed.

(** Reading a text of the normalized shape word by word and joining the
    words with one space gives the text back; [cur] is empty exactly at the
    start of a word. *)
Lemma join_split_from b cur s :
  spaced b s = true -> rstrip s = s ->
  (b = true <-> cur = "") ->
  join " " (split_from cur s) = cur +:+ s.
Proof.
  revert b cur. induction s as [| c r IH]; intros b cur Hs Hr Hb.
  - simpl. rewrite app_empty_r. by case_decide.
  - pose proof (rstrip_fixed_tail _ _ Hr) as Hr'.
    apply spaced_cons in Hs as [(-> & -> & Hs) | (Hc & _ & Hs)].
    + assert (cur <> "") as Hcur by (intros ?; by apply Hb in H).
      assert (r <> "") as Hne.
      { intros ->. discriminate Hr. }
      cbn [split_from]. change (is_space " ") with true. cbn iota.
      case_decide; [done |].
      specialize (IH true "" Hs Hr' (conj (fun _ => eq_refl) (fun _ => eq_refl))).
      change ("" +:+ r) with r in IH.
      rewrite join_cons, IH; [done |].
      intros Hnil. rewrite Hnil in IH. simpl in IH. congruence.
    + cbn [split_from].
      destruct (lower_alnum_char c Hc) as (_ & -> & _).
      rewrite (IH false (cur +:+ String c "") Hs Hr'), app_char_l; [done |].
      split; [done | intros Ha; by apply app_char_nonempty in Ha].
Qed.

(** X17: splitting a normalized text and joining the words with one space
    gives the normalized text back. *)
Theorem join_split_normalize (t : string) :
  join " " (split (normalize t)) = normalize t.
Proof.
  destruct (normalize_shape t) as [Hs Hr].
  apply (join_split_from true ""); done.
Qed.

(** ** Detection and surrounding text *)

Lemma substring_context k text pre post :
  substring k text -> substring k (pre +:+ text +:+ post).
Proof.
  intros (a & b & ->). exists (pre +:+ a), (b +:+ post).
  induction pre as [| c pre IH]; [| by rewrite !app_cons, IH].
  change ("" +:+ ?x) with x.
  induction a as [| c a IHa]; [| by rewrite !app_cons, IHa].
  change ("" +:+ ?x) with x.
  induction k as [| c k IHk]; [done | by rewrite !app_cons, IHk].
Qed.

Lemma first_item_in_context items text pre post :
  is_Some (first_item_in items text) ->
  is_Some (first_item_in items (pre +:+ text +:+ post)).
Proof.
  induction items as [| [k v] rest IH]; simpl; [done |].
  destruct (str_in k text) eqn:Hk.
  - intros _. apply str_in_spec in Hk.
    apply (substring_context _ _ pre post), str_in_spec in Hk.
    rewrite Hk. by eexists.
  - intros Hr. destruct (str_in k (pre +:+ text +:+ post)); [by eexists |].
    by apply IH.
Qed.

(** X18: text around a text never hides a phrase: when the urgency (resp.
    budget) extractor finds a label in a text, it finds one in every text
    that contains it; and an emergency stays an emergency. *)
Theorem detection_survives_context (text pre post : string) :
  (is_Some (extract_urgency text) ->
   is_Some (extract_urgency (pre +:+ text +:+ post)))
  /\ (is_Some (extract_budget text) ->
      is_Some (extract_budget (pre +:+ text +:+ post)))
  /\ (extract_urgency text = Some "emergency" ->
      extract_urgency (pre +:+ text +:+ post) = Some "emergency")
  /\ (extract_budget text = Some "low" ->
      extract_budget (pre +:+ text +:+ post) = Some "low").
Proof.
  split_and!.
  - apply first_item_in_context.
  - apply first_item_in_context.
  - rewrite !extract_urgency_tests.
    destruct (str_in "now" text || _) eqn:He.
    + intros _. rewrite !orb_true_iff, !str_in_spec in He.
      destruct He as [He | [He | [He | He]]];
        apply (substring_context _ _ pre post), str_in_spec in He;
        rewrite He, ?orb_true_r; done.
    + destruct (str_in "today" text), (str_in "tomorrow" text),
        (str_in "whenever" text); done.
  - rewrite !extract_budget_tests.
    destruct (str_in "cheap" text || _) eqn:He.
    + intros _. rewrite !orb_true_iff, !str_in_spec in He.
      destruct He as [He | [He | He]];
        apply (substring_context _ _ pre post), str_in_spec in He;
        rewrite He, ?orb_true_r; done.
    + destruct (str_in "expensive" text || _), (str_in "fair price" text);
        done.
Qed.

Lemma detection_survives_context_witness :
  is_Some (extract_urgency ("i need it " +:+ "today" +:+ " or tomorrow"))
  /\ extract_urgency ("call " +:+ "asap" +:+ " or whenever")
     = Some "emergency".
Proof.
  split.
  - apply (proj1 (detection_survives_context "today" "i need it " " or tomorrow")).
    by eexists.
  - apply (proj1 (proj2 (proj2
             (detection_survives_context "asap" "call " " or whenever")))).
    reflexivity.
Defined.

(** ** Stopwords and the token extractors *)

Lemma stopword_not_keyword w :
  w ∈ STOPWORDS -> SERVICE_KEYWORDS !! w = None /\ w ∉ SERVICE_TYPES.
Proof.
  unfold STOPWORDS. rewrite elem_of_list_to_set. intros Hw.
  repeat (apply elem_of_cons in Hw as [-> | Hw]; [split; compute_done |]).
  by apply elem_of_nil in Hw.
Qed.

Lemma extract_primary_intent_filter (words : list string) :
  extract_primary_intent (filter (fun t => t ∉ STOPWORDS) words)
  = extract_primary_intent words.
Proof.
  induction words as [| w rest IH]; [done |].
  destruct (decide (w ∈ STOPWORDS)) as [Hw | Hw].
  - rewrite filter_cons_False by (intros ?; done).
    cbn [extract_primary_intent].
    by destruct (stopword_not_keyword w Hw) as [-> _].
  - rewrite filter_cons_True by done. cbn [extract_primary_intent].
    by rewrite IH.
Qed.

Lemma extract_service_type_filter (words : list string) :
  extract_service_type (filter (fun t => t ∉ STOPWORDS) words)
  = extract_service_type words.
Proof.
  induction words as [| w rest IH]; [done |].
  destruct (decide (w ∈ STOPWORDS)) as [Hw | Hw].
  - rewrite filter_cons_False by (intros ?; done).
    cbn [extract_service_type].
    destruct (stopword_not_keyword w Hw) as [_ Hn]. by case_decide.
  - rewrite filter_cons_True by done. cbn [extract_service_type].
    by rewrite IH.
Qed.

(** X19: no stopword is a service keyword or a service type, so removing the
    stopwords changes neither the intent nor the service type: both are the
    same on the tokens and on all the words of the text. *)
Theorem stopwords_do_not_change_extraction (text : string) :
  extract_primary_intent (tokenize text) = extract_primary_intent (split text)
  /\ extract_service_type (tokenize text) = extract_service_type (split text).
Proof.
  unfold tokenize. split.
  - apply extract_primary_intent_filter.
  - apply extract_service_type_filter.
Qed.
